(** * Electron density of the H2 molecule from two 1s Slater orbitals

    A shallow embedding of the code cell of [h2_1s_density.ipynb]:
    [distance], the overlap integral [S], and the two arrays that
    [plot_func] computes (the normalised 2D density [Z] and the 1D cut
    [density_1d]).

    Python floats are idealised as the real numbers of the Standard
    Library, so the statements below are about the formulas the code
    evaluates, not about the last bits of a binary64 result; what is kept
    of the float range is the [OverflowError] of [math.exp].  numpy
    arrays are lists (a 2D array is a list of rows), and the element-wise
    numpy operators are written out as maps and zips.
    The internuclear distance, [R] in the notebook, is called [Rab] here
    because [R] is the type of reals.  The notebook fixes [alpha] as a
    module-level constant; the definitions take it as a parameter and the
    constant is instantiated at the end. *)

From Stdlib Require Import ZArith Reals Lra Lia List.
Import ListNotations.
Local Open Scope R_scope.

(** ** numpy operations used by the notebook *)

Module Np.

Definition vec := list R.
Definition mat := list vec.

(** Element-wise binary operator on two arrays of the same shape.  numpy
    refuses arrays of different shapes; the notebook only ever combines
    arrays that come from one [meshgrid] call, so the truncation of the
    longer list below is never reached. *)
Fixpoint zip_with {A B C : Type} (f : A -> B -> C)
         (l1 : list A) (l2 : list B) : list C :=
  match l1, l2 with
  | a :: l1', b :: l2' => f a b :: zip_with f l1' l2'
  | _, _ => []
  end.

(** [np.linspace(start, stop, num)]: [arange(0, num) * step + start]
    with [step = (stop - start) / (num - 1)]. *)
Definition linspace (start stop : R) (num : nat) : vec :=
  let step := (stop - start) / INR (num - 1) in
  map (fun i => INR i * step + start) (seq 0 num).

(** [np.meshgrid(x, y)] with the default 'xy' indexing: both results
    have [len y] rows and [len x] columns, [X[i][j] = x[j]] and
    [Y[i][j] = y[i]]. *)
Definition meshgrid (x y : vec) : mat * mat :=
  (map (fun _ => x) y, map (fun yi => map (fun _ => yi) x) y).

(** array (+|-) scalar, scalar * array *)
Definition vadds (v : vec) (c : R) : vec := map (fun a => a + c) v.
Definition vsubs (v : vec) (c : R) : vec := map (fun a => a - c) v.
Definition vscale (c : R) (v : vec) : vec := map (fun a => c * a) v.
Definition madds (m : mat) (c : R) : mat := map (fun v => vadds v c) m.
Definition msubs (m : mat) (c : R) : mat := map (fun v => vsubs v c) m.
Definition mscale (c : R) (m : mat) : mat := map (vscale c) m.

(** array + array *)
Definition vadd (u v : vec) : vec := zip_with Rplus u v.
Definition madd (m n : mat) : mat := zip_with vadd m n.

(** array ** 2, np.exp(array), np.sqrt(array) *)
Definition vpow2 (v : vec) : vec := map (fun a => a ^ 2) v.
Definition mpow2 (m : mat) : mat := map vpow2 m.
Definition vexp (v : vec) : vec := map exp v.
Definition mexp (m : mat) : mat := map vexp m.
Definition vsqrt (v : vec) : vec := map sqrt v.
Definition msqrt (m : mat) : mat := map vsqrt m.

End Np.

Import Np.

(** ** The notebook's functions *)

(** [def distance(x, y): return np.sqrt(x ** 2 + y ** 2)].  [distance] is
    what it computes for one pair of numbers; the notebook calls it on
    (array, scalar [0]) for the 1D cut and on (2D array, 2D array) for
    the grid, which are the two element-wise versions below. *)
Definition distance (x y : R) : R := sqrt (x ^ 2 + y ^ 2).

Definition distance_vs (x : vec) (y : R) : vec :=
  vsqrt (vadds (vpow2 x) (y ^ 2)).

Definition distance_mm (x y : mat) : mat :=
  msqrt (madd (mpow2 x) (mpow2 y)).

Section Density.

(** The orbital exponent, a module-level constant of the notebook. *)
Variable alpha : R.

(** [def S(R)]: the overlap integral. *)
Definition S (Rab : R) : R :=
  let w := alpha * Rab in
  let w2 := w * w in
  exp (- w) * (1 + w + w2 / 3).

(** The array [Z] of [plot_func], for given coordinate ranges [x], [y]. *)
Definition density_2d (Rab : R) (x y : vec) : mat :=
  let (X, Y) := meshgrid x y in
  let ra := distance_mm (msubs X (Rab / 2)) Y in
  let rb := distance_mm (madds X (Rab / 2)) Y in
  mscale (alpha ^ 3 / (PI * (1 + S Rab)))
         (mpow2 (madd (mexp (mscale (- alpha) ra))
                      (mexp (mscale (- alpha) rb)))).

(** The array [density_1d] of [plot_func], for a given range [x]. *)
Definition density_1d (Rab : R) (x : vec) : vec :=
  let ra_1d := distance_vs (vsubs x (Rab / 2)) 0 in
  let rb_1d := distance_vs (vadds x (Rab / 2)) 0 in
  vpow2 (vadd (vexp (vscale (- alpha) ra_1d))
              (vexp (vscale (- alpha) rb_1d))).

(** The value of each array at one sample point, as the element-wise
    code computes it. *)
Definition density_2d_at (Rab x y : R) : R :=
  alpha ^ 3 / (PI * (1 + S Rab))
  * (exp (- alpha * distance (x - Rab / 2) y)
     + exp (- alpha * distance (x + Rab / 2) y)) ^ 2.

Definition density_1d_at (Rab x : R) : R :=
  (exp (- alpha * distance (x - Rab / 2) 0)
   + exp (- alpha * distance (x + Rab / 2) 0)) ^ 2.

End Density.

(** [alpha = 1.24] *)
Definition alpha : R := 1.24.

(** ** Calls and their outcome

    A Python call either returns a value or raises.  None of the
    notebook's functions contains a [raise], an [assert] or a check of
    its arguments; the errors a call can end in are those of the library
    functions it uses. *)

Inductive error : Type :=
| InvalidParameter
| OverflowError
| ValueError.

Inductive result (A : Type) : Type :=
| Ok (a : A)
| Raise (e : error).

Arguments Ok {A} a.
Arguments Raise {A} e.

(** [math.exp(x)] raises [OverflowError] when the result is too large for
    a float, that is for [x] above ln(DBL_MAX) = 709.78271289338397...;
    [np.exp] on an array never raises. *)
Definition exp_max_arg : R := 709.782712893384.

Definition math_exp (x : R) : result R :=
  if Rlt_dec exp_max_arg x then Raise OverflowError else Ok (exp x).

(** A call [S(R)]: the body of [S] with the outcome of [math.exp]. *)
Definition overlap (alpha Rab : R) : result R :=
  let w := alpha * Rab in
  let w2 := w * w in
  match math_exp (- w) with
  | Ok e => Ok (e * (1 + w + w2 / 3))
  | Raise err => Raise err
  end.

(** The array [Z]: its prefactor calls [S(R)], whose error ends the
    computation; otherwise the value is [density_2d]. *)
Definition evaluate2D (alpha Rab : R) (xRange yRange : vec) : result mat :=
  match overlap alpha Rab with
  | Ok _ => Ok (density_2d alpha Rab xRange yRange)
  | Raise err => Raise err
  end.

(** The array [density_1d]: only numpy operations, none of which raises. *)
Definition evaluate1D (alpha Rab : R) (xRange : vec) : result vec :=
  Ok (density_1d alpha Rab xRange).

(** [def plot_func(R)]: the two arrays it computes before drawing them. *)
Definition plot_func (Rab : R) : result (mat * vec) :=
  let d := 2.0 in
  let x := linspace (- d) d 100 in
  let y := linspace (- d) d 100 in
  match evaluate2D alpha Rab x y with
  | Ok Zg =>
      match evaluate1D alpha Rab x with
      | Ok density_1d => Ok (Zg, density_1d)
      | Raise err => Raise err
      end
  | Raise err => Raise err
  end.

(** Euclidean distance between two points of the plane, used to state
    the geometry of the two nuclei. *)
Definition euclid (p q : R * R) : R :=
  sqrt ((fst p - fst q) ^ 2 + (snd p - snd q) ^ 2).

Definition nucleusA (Rab : R) : R * R := (- (Rab / 2), 0).
Definition nucleusB (Rab : R) : R * R := (Rab / 2, 0).

(** The polynomial factor of [S]. *)
Definition overlap_poly (w : R) : R := 1 + w + w * w / 3.

(** ** Shape of a sampled curve

    [d] holds the values of a curve at the samples [x], entry by entry. *)

(** Entry [i] is strictly above both of its neighbours. *)
Definition local_max (d : vec) (i : nat) : Prop :=
  nth (i - 1) d 0 < nth i d 0 /\ nth (i + 1) d 0 < nth i d 0.

(** Entry [i] is not above either of its neighbours. *)
Definition local_min (d : vec) (i : nat) : Prop :=
  nth i d 0 <= nth (i - 1) d 0 /\ nth i d 0 <= nth (i + 1) d 0.

(** No sample of [x] is nearer to [c] than sample [i]. *)
Definition closest_sample (x : vec) (i : nat) (c : R) : Prop :=
  (i < length x)%nat
  /\ forall j, (j < length x)%nat ->
              Rabs (nth i x 0 - c) <= Rabs (nth j x 0 - c).

(** ** The annotations of the 1D plot *)

(** [np.max(a)]: the largest entry of an array; numpy raises
    [ValueError] on an empty array. *)
Definition np_max (a : vec) : result R :=
  match a with
  | [] => Raise ValueError
  | v :: a' => Ok (fold_left Rmax a' v)
  end.

(** What [plot_func] adds to the 1D plot: two dashed vertical lines
    ([plt.axvline]) and one text label beside each ([plt.text], given by
    the anchor point of the label). *)
Record annotations : Type := {
  vline_left : R;
  vline_right : R;
  text_left : R * R;
  text_right : R * R
}.

Definition plot_func_annotations (Rab : R) : result annotations :=
  match plot_func Rab with
  | Raise err => Raise err
  | Ok (_, density_1d) =>
      let offset := 0.1 in
      match np_max density_1d with
      | Raise err => Raise err
      | Ok m =>
          Ok {| vline_left := - Rab / 2;
                vline_right := Rab / 2;
                text_left := (- Rab / 2 - offset, m * 0.1);
                text_right := (Rab / 2 + offset, m * 0.1) |}
      end
  end.

(** The values the slider [FloatSlider(min=0, max=3, ...)] can pass to
    [plot_func]. *)
Definition slider_range (Rab : R) : Prop := 0 <= Rab <= 3.

(** ** Lists: element-wise operators as maps *)

Section ListFacts.

Context {A B C D : Type}.

Lemma zip_with_map (f : B -> C -> D) (g : A -> B) (h : A -> C) (l : list A) :
  zip_with f (map g l) (map h l) = map (fun a => f (g a) (h a)) l.
Proof.
  induction l as [|a l IH]; simpl; [reflexivity|].
  now rewrite IH.
Qed.

Lemma nth_map_lt (f : A -> B) (l : list A) (i : nat) (d : A) (d' : B) :
  (i < length l)%nat -> nth i (map f l) d' = f (nth i l d).
Proof.
  intros Hi.
  rewrite (nth_indep (map f l) d' (f d)) by now rewrite length_map.
  apply map_nth.
Qed.

End ListFacts.

Section Fusion.

Variable alpha : R.

(** The 2D array is the table of the point values, one row per [y]. *)
Lemma density_2d_table (Rab : R) (x y : vec) :
  density_2d alpha Rab x y
  = map (fun yi => map (fun xj => density_2d_at alpha Rab xj yi) x) y.
Proof.
  unfold density_2d, meshgrid, distance_mm, msubs, madds, mscale, mpow2,
    mexp, msqrt, madd.
  repeat (rewrite ?map_map, ?zip_with_map).
  apply map_ext; intros yi.
  unfold vscale, vpow2, vexp, vsqrt, vadd, vsubs, vadds.
  repeat (rewrite ?map_map, ?zip_with_map).
  apply map_ext; intros xj.
  reflexivity.
Qed.

(** The 1D array is the list of the point values. *)
Lemma density_1d_table (Rab : R) (x : vec) :
  density_1d alpha Rab x = map (density_1d_at alpha Rab) x.
Proof.
  unfold density_1d, distance_vs, vscale, vpow2, vexp, vsqrt, vadd,
    vsubs, vadds.
  repeat (rewrite ?map_map, ?zip_with_map).
  apply map_ext; intros xj.
  reflexivity.
Qed.

Lemma density_2d_nth (Rab : R) (x y : vec) (i j : nat) :
  (i < length y)%nat -> (j < length x)%nat ->
  nth j (nth i (density_2d alpha Rab x y) []) 0
  = density_2d_at alpha Rab (nth j x 0) (nth i y 0).
Proof.
  intros Hi Hj.
  rewrite density_2d_table.
  rewrite (nth_map_lt (B := vec) _ y i 0 []) by assumption.
  now rewrite (nth_map_lt _ x j 0 0) by assumption.
Qed.

Lemma density_1d_nth (Rab : R) (x : vec) (i : nat) :
  (i < length x)%nat ->
  nth i (density_1d alpha Rab x) 0 = density_1d_at alpha Rab (nth i x 0).
Proof.
  intros Hi.
  rewrite density_1d_table.
  now apply nth_map_lt.
Qed.

End Fusion.

(** ** Geometry *)

Lemma distance_0_r (x : R) : distance x 0 = Rabs x.
Proof.
  unfold distance.
  replace (x ^ 2 + 0 ^ 2) with (Rsqr x) by (unfold Rsqr; ring).
  apply sqrt_Rsqr_abs.
Qed.

Lemma distance_opp_l (x y : R) : distance (- x) y = distance x y.
Proof. unfold distance. f_equal. ring. Qed.

Lemma distance_nucleusA (Rab x y : R) :
  distance (x + Rab / 2) y = euclid (x, y) (nucleusA Rab).
Proof. unfold distance, euclid, nucleusA; simpl. f_equal. ring. Qed.

Lemma distance_nucleusB (Rab x y : R) :
  distance (x - Rab / 2) y = euclid (x, y) (nucleusB Rab).
Proof. unfold distance, euclid, nucleusB; simpl. f_equal. ring. Qed.

(** ** The overlap integral *)

Lemma S_unfold (alpha Rab : R) :
  S alpha Rab = exp (- (alpha * Rab)) * overlap_poly (alpha * Rab).
Proof. reflexivity. Qed.

(** *** Outcome of the calls *)

Lemma math_exp_returns (x : R) : x <= exp_max_arg -> math_exp x = Ok (exp x).
Proof.
  intros Hx. unfold math_exp.
  destruct (Rlt_dec exp_max_arg x) as [Hlt | _]; [lra | reflexivity].
Qed.


Lemma overlap_returns (alpha Rab : R) :
  - (alpha * Rab) <= exp_max_arg -> overlap alpha Rab = Ok (S alpha Rab).
Proof.
  intros Hw. unfold overlap. cbv zeta.
  now rewrite math_exp_returns by exact Hw.
Qed.


Lemma exp_max_arg_pos : 0 < exp_max_arg.
Proof. unfold exp_max_arg. lra. Qed.

Lemma overlap_returns_physical (alpha Rab : R) :
  0 <= alpha -> 0 <= Rab -> overlap alpha Rab = Ok (S alpha Rab).
Proof.
  intros Ha HR. apply overlap_returns.
  pose proof exp_max_arg_pos. nra.
Qed.

Lemma evaluate2D_returns (alpha Rab : R) (x y : vec) :
  - (alpha * Rab) <= exp_max_arg ->
  evaluate2D alpha Rab x y = Ok (density_2d alpha Rab x y).
Proof.
  intros Hw. unfold evaluate2D. now rewrite overlap_returns by exact Hw.
Qed.

Lemma evaluate2D_returns_physical (alpha Rab : R) (x y : vec) :
  0 <= alpha -> 0 <= Rab ->
  evaluate2D alpha Rab x y = Ok (density_2d alpha Rab x y).
Proof.
  intros Ha HR. apply evaluate2D_returns.
  pose proof exp_max_arg_pos. nra.
Qed.

Lemma exp_third (h : R) : exp h = exp (h / 3) ^ 3.
Proof.
  replace h with (h / 3 + (h / 3 + h / 3)) at 1 by field.
  rewrite !exp_plus. ring.
Qed.

(** *** The formula of [S] over the reals

    The lemmas of this part are about the real-valued expression
    exp(-w) * (1 + w + w^2/3); where a binary64 result is within one
    rounding of a bound they say nothing about which side it falls. *)

(** The exponential dominates the polynomial of the overlap formula. *)
Lemma exp_ge_overlap_poly (h : R) : 0 <= h -> overlap_poly h <= exp h.
Proof.
  intros Hh. unfold overlap_poly.
  rewrite (exp_third h).
  pose proof (exp_ineq1_le (h / 3)) as He.
  set (e := exp (h / 3)) in *.
  assert (H1 : 1 <= 1 + h / 3) by lra.
  assert (H2 : (1 + h / 3) ^ 3 <= e ^ 3).
  { apply pow_incr. lra. }
  assert (H3 : 0 <= h ^ 3) by (apply pow_le; exact Hh).
  replace ((1 + h / 3) ^ 3) with (1 + h + h * h / 3 + h ^ 3 / 27) in H2 by field.
  lra.
Qed.

Lemma overlap_poly_step (w h : R) :
  0 <= w -> 0 <= h -> overlap_poly (w + h) <= exp h * overlap_poly w.
Proof.
  intros Hw Hh.
  pose proof (exp_ge_overlap_poly h Hh) as He.
  unfold overlap_poly in *.
  assert (Hp : 1 <= 1 + w + w * w / 3) by nra.
  apply Rle_trans with ((1 + h + h * h / 3) * (1 + w + w * w / 3)).
  - nra.
  - apply Rmult_le_compat_r; lra.
Qed.

Lemma S_pos (alpha Rab : R) : 0 <= alpha * Rab -> 0 < S alpha Rab.
Proof.
  intros Hw. rewrite S_unfold. unfold overlap_poly.
  apply Rmult_lt_0_compat; [apply exp_pos | nra].
Qed.

Lemma S_antitone_w (alpha R1 R2 : R) :
  0 <= alpha * R1 -> alpha * R1 <= alpha * R2 ->
  S alpha R2 <= S alpha R1.
Proof.
  intros H1 H12. rewrite !S_unfold.
  set (w := alpha * R1) in *.
  set (h := alpha * R2 - w).
  replace (alpha * R2) with (w + h) by (unfold h; ring).
  assert (Hh : 0 <= h) by (unfold h; lra).
  pose proof (overlap_poly_step w h H1 Hh) as Hstep.
  replace (- (w + h)) with (- w + - h) by ring.
  rewrite exp_plus, (exp_Ropp h).
  pose proof (exp_pos h) as Heh.
  pose proof (exp_pos (- w)) as Hew.
  rewrite Rmult_assoc.
  apply Rmult_le_compat_l; [lra|].
  apply Rmult_le_reg_l with (exp h); [exact Heh|].
  rewrite <- Rmult_assoc, Rinv_r by lra.
  lra.
Qed.

Lemma S_at_0 (alpha : R) : S alpha 0 = 1.
Proof.
  unfold S. rewrite Rmult_0_r, Ropp_0, exp_0. field.
Qed.

Lemma S_le_1 (alpha Rab : R) : 0 <= alpha * Rab -> S alpha Rab <= 1.
Proof.
  intros Hw. rewrite <- (S_at_0 alpha).
  apply S_antitone_w; rewrite Rmult_0_r; lra.
Qed.

(** The normalisation factor of the 2D density is positive. *)
Lemma prefactor_pos (alpha Rab : R) :
  0 < alpha -> 0 <= Rab -> 0 < alpha ^ 3 / (PI * (1 + S alpha Rab)).
Proof.
  intros Ha HR.
  assert (Hw : 0 <= alpha * Rab) by nra.
  pose proof (S_pos alpha Rab Hw) as HS.
  pose proof PI_RGT_0 as Hpi.
  apply Rdiv_lt_0_compat.
  - apply pow_lt; exact Ha.
  - apply Rmult_lt_0_compat; lra.
Qed.

(** ** The density arrays *)

(** C1: for alpha > 0, R >= 0 and non-empty ranges, evaluate2D (the array
    [Z] of [plot_func], which always carries the normalisation) returns
    the grid with one row per y and one entry per x whose value at (x, y)
    is alpha^3 / (pi * (1 + overlap)) * (exp(-alpha*ra) + exp(-alpha*rb))^2,
    ra and rb being the Euclidean distances from (x, y) to the nuclei at
    (-R/2, 0) and (+R/2, 0). *)
Theorem evaluate2D_normalized_density (alpha Rab : R) (xRange yRange : vec) :
  0 < alpha -> 0 <= Rab -> xRange <> [] -> yRange <> [] ->
  evaluate2D alpha Rab xRange yRange
  = Ok (map (fun y =>
          map (fun x =>
                 let ra := euclid (x, y) (nucleusA Rab) in
                 let rb := euclid (x, y) (nucleusB Rab) in
                 alpha ^ 3 / (PI * (1 + S alpha Rab))
                 * (exp (- alpha * ra) + exp (- alpha * rb)) ^ 2)
              xRange)
          yRange).
Proof.
  intros Ha HR _ _.
  rewrite evaluate2D_returns_physical by lra.
  rewrite density_2d_table. f_equal.
  apply map_ext; intros y. apply map_ext; intros x.
  unfold density_2d_at.
  rewrite distance_nucleusA, distance_nucleusB.
  cbv zeta. ring.
Qed.

Lemma evaluate2D_normalized_density_witness :
  evaluate2D 1 1 [0; 1] [0]
  = Ok (map (fun y =>
          map (fun x =>
                 let ra := euclid (x, y) (nucleusA 1) in
                 let rb := euclid (x, y) (nucleusB 1) in
                 1 ^ 3 / (PI * (1 + S 1 1))
                 * (exp (- (1) * ra) + exp (- (1) * rb)) ^ 2)
              [0; 1])
          [0]).
Proof.
  apply (evaluate2D_normalized_density 1 1 [0; 1] [0]);
    [lra | lra | discriminate | discriminate].
Defined.

(** C2: for alpha > 0, R >= 0 and a non-empty range, evaluate1D (the
    array [density_1d] of [plot_func]) returns for each x the
    unnormalised squared amplitude (exp(-alpha*ra) + exp(-alpha*rb))^2
    with ra = |x - R/2| and rb = |x + R/2|, without any prefactor. *)
Theorem evaluate1D_unnormalized_density (alpha Rab : R) (xRange : vec) :
  0 < alpha -> 0 <= Rab -> xRange <> [] ->
  evaluate1D alpha Rab xRange
  = Ok (map (fun x =>
               let ra := Rabs (x - Rab / 2) in
               let rb := Rabs (x + Rab / 2) in
               (exp (- alpha * ra) + exp (- alpha * rb)) ^ 2)
            xRange).
Proof.
  intros _ _ _.
  unfold evaluate1D. rewrite density_1d_table. f_equal.
  apply map_ext; intros x.
  unfold density_1d_at. now rewrite !distance_0_r.
Qed.

Lemma evaluate1D_unnormalized_density_witness :
  evaluate1D 1 1 [0; 1]
  = Ok (map (fun x =>
               let ra := Rabs (x - 1 / 2) in
               let rb := Rabs (x + 1 / 2) in
               (exp (- (1) * ra) + exp (- (1) * rb)) ^ 2)
            [0; 1]).
Proof.
  apply (evaluate1D_unnormalized_density 1 1 [0; 1]);
    [lra | lra | discriminate].
Defined.

(** C3, as stated, fails: with the notebook's alpha = 1.24 and R = 1 the
    overlap is exp(-1.24) * (1 + 1.24 + 1.24^2 / 3), not
    exp(-1.24) * (1 + 1.24 + (1/3)^2). *)
Lemma overlap_not_constant_ninth :
  overlap alpha 1
  <> Ok (let w := alpha * 1 in exp (- w) * (1 + w + (1 / 3) ^ 2)).
Proof.
  rewrite overlap_returns_physical by (unfold alpha; lra).
  unfold S, alpha. cbv zeta. intros H. injection H as H.
  pose proof (exp_pos (- (1.24 * 1))) as He.
  apply Rmult_eq_reg_l in H; lra.
Qed.

(** C3, amended: for alpha > 0 and R >= 0, overlap(alpha, R) returns
    exp(-w) * (1 + w + w^2 / 3) with w = alpha * R; the third term is the
    quadratic w^2 / 3. *)
Theorem overlap_quadratic_term (alpha Rab : R) :
  0 < alpha -> 0 <= Rab ->
  overlap alpha Rab
  = Ok (let w := alpha * Rab in exp (- w) * (1 + w + w ^ 2 / 3)).
Proof.
  intros Ha HR. rewrite overlap_returns_physical by lra.
  unfold S. cbv zeta. f_equal. f_equal. field.
Qed.

Lemma overlap_quadratic_term_witness :
  overlap 1 1 = Ok (let w := 1 * 1 in exp (- w) * (1 + w + w ^ 2 / 3)).
Proof.
  apply (overlap_quadratic_term 1 1); lra.
Defined.

(** C4: for every alpha > 0, overlap(alpha, 0) is exactly 1. *)
Theorem overlap_at_zero (alpha : R) :
  0 < alpha -> overlap alpha 0 = Ok 1.
Proof.
  intros Ha. rewrite overlap_returns_physical by lra. now rewrite S_at_0.
Qed.

Lemma overlap_at_zero_witness : overlap 1.24 0 = Ok 1.
Proof.
  apply (overlap_at_zero 1.24); lra.
Defined.

(** ** Reflection symmetry *)

Lemma density_2d_at_opp (alpha Rab x y : R) :
  density_2d_at alpha Rab (- x) y = density_2d_at alpha Rab x y.
Proof.
  unfold density_2d_at.
  replace (- x - Rab / 2) with (- (x + Rab / 2)) by ring.
  replace (- x + Rab / 2) with (- (x - Rab / 2)) by ring.
  rewrite !distance_opp_l. ring.
Qed.

Lemma density_1d_at_opp (alpha Rab x : R) :
  density_1d_at alpha Rab (- x) = density_1d_at alpha Rab x.
Proof.
  unfold density_1d_at.
  replace (- x - Rab / 2) with (- (x + Rab / 2)) by ring.
  replace (- x + Rab / 2) with (- (x - Rab / 2)) by ring.
  rewrite !distance_opp_l. ring.
Qed.

(** C6: for alpha > 0 and R >= 0 the density is symmetric under
    x -> -x: the value at (-x, y) is the value at (x, y), and mirroring
    the x range leaves every entry of the 2D grid and of the 1D cut
    unchanged. *)
Theorem density_reflection_symmetry (alpha Rab : R) :
  0 < alpha -> 0 <= Rab ->
  (forall x y, density_2d_at alpha Rab (- x) y = density_2d_at alpha Rab x y)
  /\ (forall x, density_1d_at alpha Rab (- x) = density_1d_at alpha Rab x)
  /\ (forall xRange yRange,
        evaluate2D alpha Rab (map Ropp xRange) yRange
        = evaluate2D alpha Rab xRange yRange)
  /\ (forall xRange,
        evaluate1D alpha Rab (map Ropp xRange) = evaluate1D alpha Rab xRange).
Proof.
  intros Ha HR.
  split; [intros; apply density_2d_at_opp|].
  split; [intros; apply density_1d_at_opp|].
  split.
  - intros xRange yRange.
    rewrite !evaluate2D_returns_physical by lra. f_equal.
    rewrite !density_2d_table.
    apply map_ext; intros y. rewrite map_map.
    apply map_ext; intros x. apply density_2d_at_opp.
  - intros xRange. unfold evaluate1D. f_equal.
    rewrite !density_1d_table, map_map.
    apply map_ext; intros x. apply density_1d_at_opp.
Qed.

Lemma density_reflection_symmetry_witness :
  density_2d_at 1.24 1.4 (- (7 / 10)) 0.5
  = density_2d_at 1.24 1.4 (7 / 10) 0.5
  /\ density_1d_at 1.24 1.4 (- (7 / 10)) = density_1d_at 1.24 1.4 (7 / 10)
  /\ evaluate2D 1.24 1.4 (map Ropp [0.7; 1]) [0; 0.5]
     = evaluate2D 1.24 1.4 [0.7; 1] [0; 0.5]
  /\ evaluate1D 1.24 1.4 (map Ropp [0.7; 1]) = evaluate1D 1.24 1.4 [0.7; 1].
Proof.
  destruct (density_reflection_symmetry 1.24 1.4) as (H2 & H1 & G2 & G1);
    [lra | lra |].
  repeat split; [apply H2 | apply H1 | apply G2 | apply G1].
Defined.

(** ** Argument checking *)

(** C7, as stated, fails: a call with alpha <= 0, with an empty range or
    with a range that is not strictly increasing raises nothing and
    returns a computed result. *)
Lemma invalid_arguments_not_rejected :
  overlap 0 1 = Ok 1
  /\ evaluate1D 0 1 [0] = Ok [4]
  /\ evaluate1D alpha 1 [] = Ok []
  /\ evaluate2D alpha 1 [] [0] = Ok [[]]
  /\ evaluate1D alpha 1 [1; 0; 0]
     = Ok [density_1d_at alpha 1 1; density_1d_at alpha 1 0;
           density_1d_at alpha 1 0].
Proof.
  split; [|split; [|split; [|split]]].
  - rewrite overlap_returns_physical by lra. unfold S. f_equal.
    rewrite Rmult_0_l, Ropp_0, exp_0. field.
  - unfold evaluate1D. rewrite density_1d_table. cbn [map].
    unfold density_1d_at. do 2 f_equal.
    replace (- 0) with 0 by ring. rewrite !Rmult_0_l, exp_0. ring.
  - reflexivity.
  - rewrite evaluate2D_returns_physical by (unfold alpha; lra).
    now rewrite density_2d_table.
  - unfold evaluate1D. now rewrite density_1d_table.
Qed.

(** C7, amended: no InvalidParameter error is raised and no argument is
    validated.  For any alpha with |alpha| <= 100, also alpha <= 0, with
    R >= 0 and alpha * R >= -709 (which keeps [math.exp] away from its
    overflow), and for any coordinate ranges, also empty or not strictly
    increasing ones, overlap, evaluate1D and evaluate2D return a computed
    result, with one value per sample point; for alpha > 0 the values
    are those of the formulas. *)
Theorem invalid_arguments_accepted (alpha Rab : R) (xRange yRange : vec) :
  -100 <= alpha <= 100 -> 0 <= Rab -> -709 <= alpha * Rab ->
  (exists s, overlap alpha Rab = Ok s)
  /\ (exists d, evaluate1D alpha Rab xRange = Ok d
                /\ length d = length xRange)
  /\ (exists Zg, evaluate2D alpha Rab xRange yRange = Ok Zg
                 /\ length Zg = length yRange
                 /\ Forall (fun row => length row = length xRange) Zg)
  /\ (0 < alpha ->
      overlap alpha Rab = Ok (S alpha Rab)
      /\ evaluate1D alpha Rab xRange
         = Ok (map (density_1d_at alpha Rab) xRange)
      /\ evaluate2D alpha Rab xRange yRange
         = Ok (map (fun y => map (fun x => density_2d_at alpha Rab x y) xRange)
                   yRange)).
Proof.
  intros _ HR Hw.
  assert (Hexp : - (alpha * Rab) <= exp_max_arg)
    by (unfold exp_max_arg; lra).
  split; [exists (S alpha Rab); now apply overlap_returns|].
  split.
  { exists (density_1d alpha Rab xRange). split; [reflexivity|].
    rewrite density_1d_table. apply length_map. }
  split.
  { exists (density_2d alpha Rab xRange yRange).
    split; [now apply evaluate2D_returns|].
    rewrite density_2d_table. split; [apply length_map|].
    apply Forall_forall. intros row Hin.
    apply in_map_iff in Hin as [yi [<- _]]. apply length_map. }
  intros _.
  split; [now apply overlap_returns|].
  split.
  - unfold evaluate1D. now rewrite density_1d_table.
  - rewrite evaluate2D_returns by exact Hexp. now rewrite density_2d_table.
Qed.

Lemma invalid_arguments_accepted_witness :
  (exists s, overlap (- (1)) 2 = Ok s)
  /\ (exists d, evaluate1D (- (1)) 2 [1; 0; 0] = Ok d
                /\ length d = length [1; 0; 0])
  /\ (exists Zg, evaluate2D (- (1)) 2 [1; 0; 0] [] = Ok Zg
                 /\ length Zg = length (@nil R)
                 /\ Forall (fun row => length row = length [1; 0; 0]) Zg)
  /\ (0 < - (1) ->
      overlap (- (1)) 2 = Ok (S (- (1)) 2)
      /\ evaluate1D (- (1)) 2 [1; 0; 0]
         = Ok (map (density_1d_at (- (1)) 2) [1; 0; 0])
      /\ evaluate2D (- (1)) 2 [1; 0; 0] []
         = Ok (map (fun y => map (fun x => density_2d_at (- (1)) 2 x y)
                                 [1; 0; 0])
                   [])).
Proof.
  apply (invalid_arguments_accepted (- (1)) 2 [1; 0; 0] []); lra.
Defined.

(** ** The two views along y = 0 *)

Lemma density_2d_at_axis (alpha Rab x : R) :
  density_2d_at alpha Rab x 0
  = alpha ^ 3 / (PI * (1 + S alpha Rab)) * density_1d_at alpha Rab x.
Proof. reflexivity. Qed.

Lemma density_1d_at_collapsed (alpha x : R) :
  density_1d_at alpha 0 x = (2 * exp (- alpha * Rabs x)) ^ 2.
Proof.
  unfold density_1d_at.
  replace (x - 0 / 2) with x by field.
  replace (x + 0 / 2) with x by field.
  rewrite distance_0_r. ring.
Qed.

(** C10: for alpha > 0, R >= 0 and every x, the 2D density at (x, 0) is
    the 1D density at x times alpha^3 / (pi * (1 + S(R))), a positive
    factor that does not depend on x; the row y = 0 of the grid is the
    1D array scaled by it. *)
Theorem density_2d_axis_is_scaled_1d (alpha Rab : R) :
  0 < alpha -> 0 <= Rab ->
  let c := alpha ^ 3 / (PI * (1 + S alpha Rab)) in
  0 < c
  /\ (forall x, density_2d_at alpha Rab x 0 = c * density_1d_at alpha Rab x)
  /\ (forall xRange,
        evaluate2D alpha Rab xRange [0]
        = Ok [map (Rmult c) (density_1d alpha Rab xRange)]).
Proof.
  intros Ha HR c.
  split; [now apply prefactor_pos|].
  split; [intros x; apply density_2d_at_axis|].
  intros xRange. rewrite evaluate2D_returns_physical by lra.
  rewrite density_2d_table, density_1d_table, map_map. simpl.
  do 2 f_equal.
Qed.

Lemma density_2d_axis_is_scaled_1d_witness :
  let c := 1.24 ^ 3 / (PI * (1 + S 1.24 1.4)) in
  0 < c
  /\ (forall x, density_2d_at 1.24 1.4 x 0 = c * density_1d_at 1.24 1.4 x)
  /\ (forall xRange,
        evaluate2D 1.24 1.4 xRange [0]
        = Ok [map (Rmult c) (density_1d 1.24 1.4 xRange)]).
Proof.
  apply (density_2d_axis_is_scaled_1d 1.24 1.4); lra.
Defined.

(** C8, as stated, fails for the 2D grid: with the notebook's
    alpha = 1.24 and R = 0 the value at the origin is
    1.24^3 / (2 * pi) * 4, which is below 4 = (2 * exp(0))^2. *)
Lemma evaluate2D_collapsed_not_bare_peak :
  evaluate2D alpha 0 [0] [0] <> Ok [[(2 * exp (- alpha * Rabs 0)) ^ 2]].
Proof.
  rewrite evaluate2D_returns_physical by (unfold alpha; lra).
  rewrite density_2d_table.
  cbn [map]. intros H. injection H as H.
  rewrite density_2d_at_axis, density_1d_at_collapsed, S_at_0 in H.
  rewrite Rabs_R0, !Rmult_0_r, !exp_0 in H.
  unfold alpha in H.
  pose proof PI2_3_2 as Hpi.
  assert (Hlt : 1.24 ^ 3 / (PI * (1 + 1)) < 1).
  { apply Rmult_lt_reg_r with (PI * (1 + 1)); [lra|].
    unfold Rdiv. rewrite Rmult_assoc, Rinv_l by lra. lra. }
  nra.
Qed.

(** C8, amended: at R = 0, for alpha > 0, evaluate1D reduces to
    (2 * exp(-alpha*|x|))^2, and evaluate2D along y = 0 reduces to that
    function times the normalisation alpha^3 / (2 * pi). *)
Theorem collapsed_nuclei_single_peak (alpha : R) :
  0 < alpha ->
  (forall xRange,
     evaluate1D alpha 0 xRange
     = Ok (map (fun x => (2 * exp (- alpha * Rabs x)) ^ 2) xRange))
  /\ (forall x,
        density_2d_at alpha 0 x 0
        = alpha ^ 3 / (2 * PI) * (2 * exp (- alpha * Rabs x)) ^ 2)
  /\ (forall xRange,
        evaluate2D alpha 0 xRange [0]
        = Ok [map (fun x =>
                     alpha ^ 3 / (2 * PI) * (2 * exp (- alpha * Rabs x)) ^ 2)
                  xRange]).
Proof.
  intros Ha.
  assert (Hpt : forall x,
             density_2d_at alpha 0 x 0
             = alpha ^ 3 / (2 * PI) * (2 * exp (- alpha * Rabs x)) ^ 2).
  { intros x.
    rewrite density_2d_at_axis, density_1d_at_collapsed, S_at_0.
    f_equal. f_equal. ring. }
  split.
  - intros xRange. unfold evaluate1D. rewrite density_1d_table. f_equal.
    apply map_ext; intros x. apply density_1d_at_collapsed.
  - split; [exact Hpt|].
    intros xRange. rewrite evaluate2D_returns_physical by lra.
    rewrite density_2d_table. simpl.
    do 2 f_equal. apply map_ext; intros x. apply Hpt.
Qed.

Lemma collapsed_nuclei_single_peak_witness :
  (forall xRange,
     evaluate1D 1.24 0 xRange
     = Ok (map (fun x => (2 * exp (- (1.24) * Rabs x)) ^ 2) xRange))
  /\ (forall x,
        density_2d_at 1.24 0 x 0
        = 1.24 ^ 3 / (2 * PI) * (2 * exp (- (1.24) * Rabs x)) ^ 2)
  /\ (forall xRange,
        evaluate2D 1.24 0 xRange [0]
        = Ok [map (fun x =>
                     1.24 ^ 3 / (2 * PI) * (2 * exp (- (1.24) * Rabs x)) ^ 2)
                  xRange]).
Proof.
  apply (collapsed_nuclei_single_peak 1.24); lra.
Defined.

(** ** Shape of the 1D cut *)

Section Profile.

Variables alpha Rab : R.
Hypothesis Halpha : 0 < alpha.

(** Between the nuclei. *)
Lemma density_1d_at_inside (x : R) :
  0 <= x <= Rab / 2 ->
  density_1d_at alpha Rab x
  = (exp (- alpha * (Rab / 2 - x)) + exp (- alpha * (x + Rab / 2))) ^ 2.
Proof.
  intros [H0 Ha]. unfold density_1d_at. rewrite !distance_0_r.
  rewrite (Rabs_left1 (x - Rab / 2)) by lra.
  rewrite (Rabs_right (x + Rab / 2)) by lra.
  do 3 f_equal. ring.
Qed.

(** Beyond the right nucleus. *)
Lemma density_1d_at_outside (x : R) :
  0 <= Rab -> Rab / 2 <= x ->
  density_1d_at alpha Rab x
  = (exp (- alpha * (x - Rab / 2)) + exp (- alpha * (x + Rab / 2))) ^ 2.
Proof.
  intros H0 Ha. unfold density_1d_at. rewrite !distance_0_r.
  rewrite (Rabs_right (x - Rab / 2)) by lra.
  rewrite (Rabs_right (x + Rab / 2)) by lra.
  reflexivity.
Qed.

Lemma exp_sum_increasing (u v : R) :
  0 <= u -> u < v -> exp u + exp (- u) < exp v + exp (- v).
Proof.
  intros Hu Huv. rewrite !exp_Ropp.
  pose proof (exp_ineq1_le u) as HU.
  pose proof (exp_increasing u v Huv) as HUV.
  set (U := exp u) in *. set (V := exp v) in *.
  assert (HU1 : 1 <= U) by lra.
  assert (HV1 : 1 < V) by lra.
  apply Rmult_lt_reg_r with (U * V); [nra|].
  replace ((U + / U) * (U * V)) with (U * U * V + V) by (field; lra).
  replace ((V + / V) * (U * V)) with (V * V * U + U) by (field; lra).
  assert (HUV1 : 1 < U * V) by nra.
  assert (Hprod : 0 < (V - U) * (U * V - 1))
    by (apply Rmult_lt_0_compat; lra).
  lra.
Qed.

Lemma sqr_lt_of_pos (a b : R) : 0 < a -> a < b -> a ^ 2 < b ^ 2.
Proof. intros; nra. Qed.

(** The cut rises from the midpoint towards the right nucleus ... *)
Lemma density_1d_at_rising (x y : R) :
  0 <= x -> x < y -> y <= Rab / 2 ->
  density_1d_at alpha Rab x < density_1d_at alpha Rab y.
Proof.
  intros H0 Hxy Hy.
  rewrite !density_1d_at_inside by lra.
  assert (Hsplit : forall t,
             exp (- alpha * (Rab / 2 - t)) + exp (- alpha * (t + Rab / 2))
             = exp (- alpha * (Rab / 2))
               * (exp (alpha * t) + exp (- (alpha * t)))).
  { intros t.
    rewrite (Rmult_plus_distr_l (exp (- alpha * (Rab / 2)))), <- !exp_plus.
    f_equal; f_equal; ring. }
  rewrite !Hsplit.
  pose proof (exp_pos (- alpha * (Rab / 2))) as Hc.
  pose proof (exp_pos (alpha * x)) as Hx.
  pose proof (exp_pos (- (alpha * x))) as Hx'.
  assert (Hinc : exp (alpha * x) + exp (- (alpha * x))
                 < exp (alpha * y) + exp (- (alpha * y))).
  { apply exp_sum_increasing; nra. }
  apply sqr_lt_of_pos.
  - apply Rmult_lt_0_compat; lra.
  - apply Rmult_lt_compat_l; assumption.
Qed.

(** ... and falls beyond it. *)
Lemma density_1d_at_falling (x y : R) :
  0 <= Rab -> Rab / 2 <= x -> x < y ->
  density_1d_at alpha Rab y < density_1d_at alpha Rab x.
Proof.
  intros H0 Hx Hxy.
  rewrite !density_1d_at_outside by lra.
  assert (H1 : exp (- alpha * (y - Rab / 2)) < exp (- alpha * (x - Rab / 2)))
    by (apply exp_increasing; nra).
  assert (H2 : exp (- alpha * (y + Rab / 2)) < exp (- alpha * (x + Rab / 2)))
    by (apply exp_increasing; nra).
  pose proof (exp_pos (- alpha * (y - Rab / 2))).
  pose proof (exp_pos (- alpha * (y + Rab / 2))).
  apply sqr_lt_of_pos; lra.
Qed.

End Profile.

(** Elementary bounds on the exponential. *)
Lemma exp_neg_upper (t : R) : exp (- t) * (1 + t) <= 1.
Proof.
  pose proof (exp_ineq1_le t) as H. pose proof (exp_pos t) as Hp.
  pose proof (exp_pos (- t)) as Hn.
  assert (Hinv : exp (- t) * exp t = 1).
  { rewrite <- exp_plus. replace (- t + t) with 0 by ring. apply exp_0. }
  nra.
Qed.

(** The two samples that straddle the right nucleus in the notebook's
    scenario: the one just outside is the higher one. *)
Lemma straddling_samples :
  density_1d_at alpha 1.4 (2 / 3) < density_1d_at alpha 1.4 (70 / 99).
Proof.
  unfold alpha.
  rewrite density_1d_at_inside by lra.
  rewrite density_1d_at_outside by lra.
  set (p := 1.24 * (1.4 / 2 - 2 / 3)).
  set (q := 1.24 * (70 / 99 - 1.4 / 2)).
  set (t := 1.24 * (70 / 99 + 1.4 / 2)).
  replace (- (1.24) * (1.4 / 2 - 2 / 3)) with (- p) by (unfold p; ring).
  replace (- (1.24) * (2 / 3 + 1.4 / 2)) with (- t + (p + q))
    by (unfold p, q, t; field).
  replace (- (1.24) * (70 / 99 - 1.4 / 2)) with (- q) by (unfold q; ring).
  replace (- (1.24) * (70 / 99 + 1.4 / 2)) with (- t) by (unfold t; ring).
  rewrite exp_plus.
  pose proof (exp_neg_upper p) as HD.
  pose proof (exp_neg_upper t) as HA.
  pose proof (exp_ineq1_le (- q)) as HC.
  pose proof (exp_neg_upper (- (p + q))) as HB.
  rewrite Ropp_involutive in HB.
  pose proof (exp_ineq1_le (p + q)) as HB1.
  pose proof (exp_pos (- p)) as HDp.
  pose proof (exp_pos (- t)) as HAp.
  set (A := exp (- t)) in *. set (B := exp (p + q)) in *.
  set (C := exp (- q)) in *. set (D := exp (- p)) in *.
  assert (Hp : p = 31 / 750) by (unfold p; lra).
  assert (Hq : q = 217 / 24750) by (unfold q; lra).
  assert (Ht : t = 43183 / 24750) by (unfold t; lra).
  rewrite Hp in *; rewrite Hq in *; rewrite Ht in *.
  assert (HA' : A <= 2 / 5) by nra.
  assert (HB' : B - 1 <= 6 / 100) by nra.
  assert (HB0 : 0 <= B - 1) by lra.
  assert (HD' : D <= 961 / 1000) by nra.
  assert (HC' : 99 / 100 <= C) by lra.
  assert (HAB : A * (B - 1) <= 2 / 5 * (6 / 100)).
  { apply Rmult_le_compat; lra. }
  apply sqr_lt_of_pos; nra.
Qed.

(** ** The sample grid *)

Lemma linspace_length (a b : R) (num : nat) :
  length (linspace a b num) = num.
Proof. unfold linspace. now rewrite length_map, length_seq. Qed.

Lemma linspace_nth (a b : R) (num i : nat) :
  (i < num)%nat ->
  nth i (linspace a b num) 0 = INR i * ((b - a) / INR (num - 1)) + a.
Proof.
  intros Hi. unfold linspace.
  rewrite (nth_map_lt _ (seq 0 num) i 0%nat 0) by now rewrite length_seq.
  now rewrite seq_nth.
Qed.

(** With the end point included, the last sample is [stop]. *)
Lemma linspace_last (a b : R) (num : nat) :
  (1 < num)%nat -> nth (num - 1) (linspace a b num) 0 = b.
Proof.
  intros Hn. rewrite linspace_nth by lia.
  assert (Hpos : 0 < INR (num - 1)) by (apply lt_0_INR; lia).
  field. lra.
Qed.

(** The i-th sample of [np.linspace(-2, 2, 100)]. *)
Lemma grid_nth (i : nat) :
  (i < 100)%nat ->
  nth i (linspace (-2) 2 100) 0 = (4 * IZR (Z.of_nat i) - 198) / 99.
Proof.
  intros Hi. rewrite linspace_nth by assumption.
  change (100 - 1)%nat with 99%nat.
  rewrite !INR_IZR_INZ. simpl Z.of_nat. field.
Qed.

Lemma grid_mirror (i : nat) :
  (i < 100)%nat ->
  nth (99 - i) (linspace (-2) 2 100) 0 = - nth i (linspace (-2) 2 100) 0.
Proof.
  intros Hi. rewrite !grid_nth by lia.
  rewrite Nat2Z.inj_sub by lia. rewrite minus_IZR. simpl Z.of_nat. field.
Qed.

Lemma grid_increasing (i j : nat) :
  (i < j)%nat -> (j < 100)%nat ->
  nth i (linspace (-2) 2 100) 0 < nth j (linspace (-2) 2 100) 0.
Proof.
  intros Hij Hj. rewrite !grid_nth by lia.
  assert (H : IZR (Z.of_nat i) < IZR (Z.of_nat j)) by (apply IZR_lt; lia).
  lra.
Qed.

Lemma grid_lower (i k : nat) :
  (k <= i)%nat -> (i < 100)%nat ->
  (4 * IZR (Z.of_nat k) - 198) / 99 <= nth i (linspace (-2) 2 100) 0.
Proof.
  intros Hk Hi. rewrite grid_nth by lia.
  assert (H : IZR (Z.of_nat k) <= IZR (Z.of_nat i)) by (apply IZR_le; lia).
  lra.
Qed.

Lemma grid_upper (i k : nat) :
  (i <= k)%nat -> (k < 100)%nat ->
  nth i (linspace (-2) 2 100) 0 <= (4 * IZR (Z.of_nat k) - 198) / 99.
Proof.
  intros Hk Hi. rewrite grid_nth by lia.
  assert (H : IZR (Z.of_nat i) <= IZR (Z.of_nat k)) by (apply IZR_le; lia).
  lra.
Qed.

(** ** The scenario alpha = 1.24, R = 1.4 on the notebook's grid *)

Section Scenario.

Local Abbreviation G i := (nth i (linspace (-2) 2 100) 0).
Local Abbreviation F x := (density_1d_at alpha 1.4 x).

Lemma alpha_pos : 0 < alpha.
Proof. unfold alpha. lra. Qed.

Lemma cut_mirror (i : nat) : (i < 100)%nat -> F (G (99 - i)) = F (G i).
Proof.
  intros Hi. rewrite grid_mirror by assumption.
  apply density_1d_at_opp.
Qed.

Lemma cut_right_rising (i : nat) :
  (50 <= i < 67)%nat -> F (G i) < F (G (i + 1)).
Proof.
  intros [Hlo Hhi].
  destruct (Nat.eq_dec i 66) as [->|Hne].
  - rewrite !grid_nth by lia. simpl Z.of_nat.
    replace ((4 * 66 - 198) / 99) with (2 / 3) by field.
    replace ((4 * 67 - 198) / 99) with (70 / 99) by field.
    exact straddling_samples.
  - pose proof (grid_lower i 50 Hlo ltac:(lia)) as H0.
    pose proof (grid_upper (i + 1) 66 ltac:(lia) ltac:(lia)) as H1.
    pose proof (grid_increasing i (i + 1) ltac:(lia) ltac:(lia)) as H2.
    simpl Z.of_nat in H0, H1.
    apply density_1d_at_rising; [exact alpha_pos | lra | exact H2 | lra].
Qed.

Lemma cut_right_falling (i : nat) :
  (67 <= i < 99)%nat -> F (G (i + 1)) < F (G i).
Proof.
  intros [Hlo Hhi].
  pose proof (grid_lower i 67 Hlo ltac:(lia)) as H0.
  pose proof (grid_increasing i (i + 1) ltac:(lia) ltac:(lia)) as H2.
  simpl Z.of_nat in H0.
  apply density_1d_at_falling; [exact alpha_pos | lra | lra | exact H2].
Qed.

Lemma cut_left_rising (i : nat) :
  (i < 32)%nat -> F (G i) < F (G (i + 1)).
Proof.
  intros Hi.
  rewrite <- (cut_mirror i), <- (cut_mirror (i + 1)) by lia.
  pose proof (cut_right_falling (98 - i) ltac:(lia)) as H.
  replace (98 - i + 1)%nat with (99 - i)%nat in H by lia.
  replace (99 - (i + 1))%nat with (98 - i)%nat by lia.
  exact H.
Qed.

Lemma cut_left_falling (i : nat) :
  (32 <= i < 49)%nat -> F (G (i + 1)) < F (G i).
Proof.
  intros Hi.
  rewrite <- (cut_mirror i), <- (cut_mirror (i + 1)) by lia.
  pose proof (cut_right_rising (98 - i) ltac:(lia)) as H.
  replace (98 - i + 1)%nat with (99 - i)%nat in H by lia.
  replace (99 - (i + 1))%nat with (98 - i)%nat by lia.
  exact H.
Qed.

Lemma cut_middle : F (G 49) = F (G 50).
Proof. symmetry. apply (cut_mirror 49). lia. Qed.

(** Along a falling run the values are ordered like the indices. *)
Lemma cut_left_falling_run (i j : nat) :
  (32 <= i)%nat -> (i < j)%nat -> (j <= 49)%nat -> F (G j) < F (G i).
Proof.
  intros Hi Hij Hj.
  induction j as [|j IH]; [lia|].
  replace (Datatypes.S j) with (j + 1)%nat in * by lia.
  destruct (Nat.eq_dec i j) as [->|Hne].
  - apply cut_left_falling. lia.
  - apply Rlt_trans with (F (G j)).
    + apply cut_left_falling. lia.
    + apply IH; lia.
Qed.

Lemma cut_right_rising_run (i j : nat) :
  (50 <= i)%nat -> (i < j)%nat -> (j <= 67)%nat -> F (G i) < F (G j).
Proof.
  intros Hi Hij Hj.
  induction j as [|j IH]; [lia|].
  replace (Datatypes.S j) with (j + 1)%nat in * by lia.
  destruct (Nat.eq_dec i j) as [->|Hne].
  - apply cut_right_rising. lia.
  - apply Rlt_trans with (F (G j)).
    + apply IH; lia.
    + apply cut_right_rising. lia.
Qed.

End Scenario.

(** *** Where the samples lie *)

Ltac grid_cases j k :=
  let Hlo := fresh "Hlo" in
  let Hhi := fresh "Hhi" in
  let Heq := fresh "Heq" in
  let Hb := fresh "Hb" in
  assert (j <= k - 1 \/ j = k \/ k + 1 <= j)%nat as [Hlo|[Heq|Hhi]] by lia;
  [ pose proof (grid_upper j (k - 1) Hlo ltac:(lia)) as Hb;
    simpl Z.of_nat in Hb
  | subst j
  | pose proof (grid_lower j (k + 1) Hhi ltac:(lia)) as Hb;
    simpl Z.of_nat in Hb ].

Ltac split_abs := unfold Rabs; repeat destruct (Rcase_abs _); lra.

Lemma grid_closest_right : closest_sample (linspace (-2) 2 100) 67 0.7.
Proof.
  split; rewrite linspace_length; [lia|].
  intros j Hj.
  rewrite (grid_nth 67) by lia. simpl Z.of_nat.
  grid_cases j 67%nat.
  - split_abs.
  - rewrite (grid_nth 67) by lia. simpl Z.of_nat. lra.
  - split_abs.
Qed.

Lemma grid_closest_left : closest_sample (linspace (-2) 2 100) 32 (-0.7).
Proof.
  split; rewrite linspace_length; [lia|].
  intros j Hj.
  rewrite (grid_nth 32) by lia. simpl Z.of_nat.
  grid_cases j 32%nat.
  - split_abs.
  - rewrite (grid_nth 32) by lia. simpl Z.of_nat. lra.
  - split_abs.
Qed.

Lemma grid_closest_centre_l : closest_sample (linspace (-2) 2 100) 49 0.
Proof.
  split; rewrite linspace_length; [lia|].
  intros j Hj.
  rewrite (grid_nth 49) by lia. simpl Z.of_nat.
  grid_cases j 49%nat.
  - split_abs.
  - rewrite (grid_nth 49) by lia. simpl Z.of_nat. lra.
  - split_abs.
Qed.

(** [plot_func] computes exactly these arrays, on the grid
    [linspace(-2, 2, 100)] in both directions. *)
Lemma plot_func_arrays (Rab : R) :
  let x := linspace (-2) 2 100 in
  plot_func Rab
  = match evaluate2D alpha Rab x x with
    | Ok Zg =>
        match evaluate1D alpha Rab x with
        | Ok d => Ok (Zg, d)
        | Raise err => Raise err
        end
    | Raise err => Raise err
    end.
Proof.
  unfold plot_func. cbv zeta.
  replace (- (2.0)) with (-2) by lra.
  replace 2.0 with 2 by lra.
  reflexivity.
Qed.

Lemma plot_func_returns (Rab : R) :
  0 <= Rab ->
  let x := linspace (-2) 2 100 in
  plot_func Rab = Ok (density_2d alpha Rab x x, density_1d alpha Rab x).
Proof.
  intros HR x. rewrite plot_func_arrays. cbv zeta. fold x.
  rewrite evaluate2D_returns_physical by (unfold alpha; lra).
  reflexivity.
Qed.

(** C9: for alpha = 1.24, R = 1.4 and x = linspace(-2, 2, 100),
    evaluate1D returns a two-lobed sequence of 100 values: it rises up to
    entry 32, falls down to entry 49, rises from entry 50 up to entry 67
    and falls from there on.  Its local maxima are exactly the entries 32
    and 67, whose samples are the ones closest to x = -0.7 and x = +0.7
    and lie within one grid step of them; a sample nearest x = 0 is a
    local minimum, strictly below both maxima. *)
Theorem evaluate1D_two_lobes :
  let x := linspace (-2) 2 100 in
  exists d : vec,
    evaluate1D alpha 1.4 x = Ok d
    /\ length d = 100%nat
    /\ (forall i, (i < 32)%nat -> nth i d 0 < nth (i + 1) d 0)
    /\ (forall i, (32 <= i < 49)%nat -> nth (i + 1) d 0 < nth i d 0)
    /\ (forall i, (50 <= i < 67)%nat -> nth i d 0 < nth (i + 1) d 0)
    /\ (forall i, (67 <= i < 99)%nat -> nth (i + 1) d 0 < nth i d 0)
    /\ (forall i, (i < 100)%nat -> local_max d i <-> i = 32%nat \/ i = 67%nat)
    /\ closest_sample x 32 (-0.7)
    /\ closest_sample x 67 0.7
    /\ Rabs (nth 32 x 0 - (-0.7)) < nth 1 x 0 - nth 0 x 0
    /\ Rabs (nth 67 x 0 - 0.7) < nth 1 x 0 - nth 0 x 0
    /\ (exists i, closest_sample x i 0
                  /\ local_min d i
                  /\ nth i d 0 < nth 32 d 0
                  /\ nth i d 0 < nth 67 d 0).
Proof.
  intros x.
  exists (density_1d alpha 1.4 x).
  split; [reflexivity|].
  assert (Hlen : length (density_1d alpha 1.4 x) = 100%nat).
  { rewrite density_1d_table, length_map. apply linspace_length. }
  assert (HD : forall i, (i < 100)%nat ->
                         nth i (density_1d alpha 1.4 x) 0
                         = density_1d_at alpha 1.4 (nth i x 0)).
  { intros i Hi. apply density_1d_nth. unfold x.
    now rewrite linspace_length. }
  set (d := density_1d alpha 1.4 x) in *.
  assert (Hup1 : forall i, (i < 32)%nat -> nth i d 0 < nth (i + 1) d 0).
  { intros i Hi. rewrite !HD by lia. now apply cut_left_rising. }
  assert (Hdn1 : forall i, (32 <= i < 49)%nat -> nth (i + 1) d 0 < nth i d 0).
  { intros i Hi. rewrite !HD by lia. now apply cut_left_falling. }
  assert (Hmid : nth 49 d 0 = nth 50 d 0).
  { rewrite !HD by lia. exact cut_middle. }
  assert (Hup2 : forall i, (50 <= i < 67)%nat -> nth i d 0 < nth (i + 1) d 0).
  { intros i Hi. rewrite !HD by lia. now apply cut_right_rising. }
  assert (Hdn2 : forall i, (67 <= i < 99)%nat -> nth (i + 1) d 0 < nth i d 0).
  { intros i Hi. rewrite !HD by lia. now apply cut_right_falling. }
  assert (Hmin32 : nth 49 d 0 < nth 32 d 0).
  { rewrite !HD by lia. apply cut_left_falling_run; lia. }
  assert (Hmin67 : nth 50 d 0 < nth 67 d 0).
  { rewrite !HD by lia. apply cut_right_rising_run; lia. }
  assert (H4849 : nth 49 d 0 < nth 48 d 0)
    by exact (Hdn1 48%nat ltac:(lia)).
  split; [exact Hlen|].
  split; [exact Hup1|].
  split; [exact Hdn1|].
  split; [exact Hup2|].
  split; [exact Hdn2|].
  split.
  { (* the local maxima are entries 32 and 67 *)
    intros i Hi. split.
    - intros [Hl Hr].
      assert (Hc : (i = 0 \/ 1 <= i < 32 \/ i = 32 \/ 33 <= i <= 49
                    \/ 50 <= i < 67 \/ i = 67 \/ 68 <= i <= 99)%nat) by lia.
      destruct Hc as [->|[Hc|[Hc|[Hc|[Hc|[Hc|Hc]]]]]]; auto.
      + change (0 - 1)%nat with 0%nat in Hl. lra.
      + pose proof (Hup1 i ltac:(lia)). lra.
      + pose proof (Hdn1 (i - 1)%nat ltac:(lia)) as Hd.
        replace (i - 1 + 1)%nat with i in Hd by lia. lra.
      + pose proof (Hup2 i ltac:(lia)). lra.
      + pose proof (Hdn2 (i - 1)%nat ltac:(lia)) as Hd.
        replace (i - 1 + 1)%nat with i in Hd by lia. lra.
    - intros [->| ->]; split.
      + exact (Hup1 31%nat ltac:(lia)).
      + exact (Hdn1 32%nat ltac:(lia)).
      + exact (Hup2 66%nat ltac:(lia)).
      + exact (Hdn2 67%nat ltac:(lia)). }
  split; [exact grid_closest_left|].
  split; [exact grid_closest_right|].
  split.
  { unfold x. rewrite !grid_nth by lia. simpl Z.of_nat. split_abs. }
  split.
  { unfold x. rewrite !grid_nth by lia. simpl Z.of_nat. split_abs. }
  exists 49%nat.
  split; [exact grid_closest_centre_l|].
  split.
  { split.
    - change (49 - 1)%nat with 48%nat. lra.
    - change (49 + 1)%nat with 50%nat. lra. }
  split; [exact Hmin32|].
  rewrite Hmid. exact Hmin67.
Qed.

(** * Further properties of the notebook's functions *)

(** ** [distance] *)

Lemma sum_sqr_nonneg (x y : R) : 0 <= x ^ 2 + y ^ 2.
Proof. nra. Qed.

Lemma distance_nonneg (x y : R) : 0 <= distance x y.
Proof. apply sqrt_pos. Qed.

Lemma distance_opp_r (x y : R) : distance x (- y) = distance x y.
Proof. unfold distance. f_equal. ring. Qed.

(** [distance] is never negative, and it does not depend on the order or
    on the signs of its two arguments. *)
Theorem distance_symmetries (x y : R) :
  0 <= distance x y
  /\ distance y x = distance x y
  /\ distance (- x) y = distance x y
  /\ distance x (- y) = distance x y.
Proof.
  split; [apply distance_nonneg|].
  split; [unfold distance; f_equal; ring|].
  split; [apply distance_opp_l | apply distance_opp_r].
Qed.

(** ** The normalisation factor *)

(** For alpha >= 0 and R >= 0 the call S(R) returns, its value is not
    negative, and so the denominator pi * (1 + S(R)) of the 2D density is
    positive: the division in [Z] never divides by zero. *)
Theorem normalisation_denominator_nonzero (alpha Rab : R) :
  0 <= alpha -> 0 <= Rab ->
  overlap alpha Rab = Ok (S alpha Rab)
  /\ 0 <= S alpha Rab
  /\ 0 < PI * (1 + S alpha Rab)
  /\ PI * (1 + S alpha Rab) <> 0.
Proof.
  intros Ha HR.
  assert (Hw : 0 <= alpha * Rab) by nra.
  pose proof (S_pos alpha Rab Hw) as HS.
  pose proof PI_RGT_0 as Hpi.
  assert (Hd : 0 < PI * (1 + S alpha Rab)) by nra.
  split; [now apply overlap_returns_physical|].
  repeat split; lra.
Qed.

Lemma normalisation_denominator_nonzero_witness :
  overlap 1.24 3 = Ok (S 1.24 3)
  /\ 0 <= S 1.24 3
  /\ 0 < PI * (1 + S 1.24 3)
  /\ PI * (1 + S 1.24 3) <> 0.
Proof.
  apply (normalisation_denominator_nonzero 1.24 3); lra.
Defined.

(** ** Shapes *)

(** The 2D array has one row per entry of [y] and one column per entry of
    [x], the shape of the two [meshgrid] arrays it is drawn against; the
    1D array has one entry per entry of [x]. *)
Theorem density_shapes (alpha Rab : R) (x y : vec) :
  length (density_2d alpha Rab x y) = length y
  /\ Forall (fun row => length row = length x) (density_2d alpha Rab x y)
  /\ map (@length R) (density_2d alpha Rab x y)
     = map (@length R) (fst (meshgrid x y))
  /\ map (@length R) (density_2d alpha Rab x y)
     = map (@length R) (snd (meshgrid x y))
  /\ length (density_1d alpha Rab x) = length x.
Proof.
  rewrite density_2d_table, density_1d_table. unfold meshgrid. simpl.
  repeat split.
  - apply length_map.
  - apply Forall_forall. intros row Hin.
    apply in_map_iff in Hin as [yi [<- _]]. apply length_map.
  - rewrite !map_map. apply map_ext. intros yi. apply length_map.
  - rewrite !map_map. apply map_ext. intros yi. now rewrite !length_map.
  - apply length_map.
Qed.

(** ** Range of the densities *)

Lemma exp_le_mono (a b : R) : a <= b -> exp a <= exp b.
Proof.
  intros [Hlt | ->]; [left; now apply exp_increasing | right; reflexivity].
Qed.

Lemma exp_decay_le_1 (alpha r : R) : 0 <= alpha -> 0 <= r -> exp (- alpha * r) <= 1.
Proof.
  intros Ha Hr. rewrite <- exp_0. apply exp_le_mono. nra.
Qed.

Lemma sqr_le_of_nonneg (a b : R) : 0 <= a -> a <= b -> a ^ 2 <= b ^ 2.
Proof. intros; nra. Qed.

(** The squared amplitude at any point lies between 0 and 4. *)
Lemma amplitude_sqr_bounds (alpha ra rb : R) :
  0 <= alpha -> 0 <= ra -> 0 <= rb ->
  0 < (exp (- alpha * ra) + exp (- alpha * rb)) ^ 2 <= 4.
Proof.
  intros Ha Hra Hrb.
  pose proof (exp_pos (- alpha * ra)).
  pose proof (exp_pos (- alpha * rb)).
  pose proof (exp_decay_le_1 alpha ra Ha Hra).
  pose proof (exp_decay_le_1 alpha rb Ha Hrb).
  split.
  - apply pow_lt. lra.
  - replace 4 with (2 ^ 2) by ring.
    apply sqr_le_of_nonneg; lra.
Qed.

(** For alpha >= 0 no value of the 1D cut is negative and none exceeds
    4, whatever R and the sample positions are. *)
Theorem density_1d_bounds (alpha Rab : R) (x : vec) :
  0 <= alpha ->
  Forall (fun v => 0 <= v <= 4) (density_1d alpha Rab x).
Proof.
  intros Ha. rewrite density_1d_table.
  apply Forall_forall. intros v Hin.
  apply in_map_iff in Hin as [xi [<- _]]. unfold density_1d_at.
  pose proof (amplitude_sqr_bounds alpha
                (distance (xi - Rab / 2) 0) (distance (xi + Rab / 2) 0)
                Ha (distance_nonneg _ _) (distance_nonneg _ _)).
  lra.
Qed.

Lemma density_1d_bounds_witness :
  Forall (fun v => 0 <= v <= 4) (density_1d 1.24 1.4 [-2; 0; 0.7]).
Proof.
  apply (density_1d_bounds 1.24 1.4 [-2; 0; 0.7]). lra.
Defined.

(** For alpha > 0 and R >= 0 the call computing the 2D array returns,
    and no value of the array is negative or exceeds 4 * alpha^3 / pi. *)
Theorem density_2d_bounds (alpha Rab : R) (x y : vec) :
  0 < alpha -> 0 <= Rab ->
  evaluate2D alpha Rab x y = Ok (density_2d alpha Rab x y)
  /\ Forall (Forall (fun v => 0 <= v <= 4 * alpha ^ 3 / PI))
            (density_2d alpha Rab x y).
Proof.
  intros Ha HR.
  split; [apply evaluate2D_returns_physical; lra|].
  rewrite density_2d_table.
  pose proof (prefactor_pos alpha Rab Ha HR) as Hc.
  assert (Hw : 0 <= alpha * Rab) by nra.
  pose proof (S_pos alpha Rab Hw) as HS.
  pose proof PI_RGT_0 as Hpi.
  assert (Ha3 : 0 < alpha ^ 3) by (apply pow_lt; exact Ha).
  assert (Hcu : alpha ^ 3 / (PI * (1 + S alpha Rab)) <= alpha ^ 3 / PI).
  { unfold Rdiv. apply Rmult_le_compat_l; [lra|].
    apply Rinv_le_contravar; nra. }
  assert (Hq : 0 < alpha ^ 3 / PI) by (apply Rdiv_lt_0_compat; lra).
  apply Forall_forall. intros row Hrow.
  apply in_map_iff in Hrow as [yi [<- _]].
  apply Forall_forall. intros v Hv.
  apply in_map_iff in Hv as [xj [<- _]].
  unfold density_2d_at.
  pose proof (amplitude_sqr_bounds alpha
                (distance (xj - Rab / 2) yi) (distance (xj + Rab / 2) yi)
                ltac:(lra) (distance_nonneg _ _) (distance_nonneg _ _))
    as [Hlo Hhi].
  set (c := alpha ^ 3 / (PI * (1 + S alpha Rab))) in *.
  set (a := (exp (- alpha * distance (xj - Rab / 2) yi)
             + exp (- alpha * distance (xj + Rab / 2) yi)) ^ 2) in *.
  replace (4 * alpha ^ 3 / PI) with (alpha ^ 3 / PI * 4) by (field; lra).
  split; [nra|].
  apply Rmult_le_compat; lra.
Qed.

Lemma density_2d_bounds_witness :
  evaluate2D 1.24 1.4 [-2; 0; 0.7] [0; 1]
  = Ok (density_2d 1.24 1.4 [-2; 0; 0.7] [0; 1])
  /\ Forall (Forall (fun v => 0 <= v <= 4 * 1.24 ^ 3 / PI))
            (density_2d 1.24 1.4 [-2; 0; 0.7] [0; 1]).
Proof.
  apply (density_2d_bounds 1.24 1.4 [-2; 0; 0.7] [0; 1]); lra.
Defined.

(** ** Reflections of the 2D density *)

Lemma density_2d_at_opp_y (alpha Rab x y : R) :
  density_2d_at alpha Rab x (- y) = density_2d_at alpha Rab x y.
Proof. unfold density_2d_at. now rewrite !distance_opp_r. Qed.

(** The 2D density is also symmetric under y -> -y; on the arrays,
    negating the y range changes nothing, reversing the y range reverses
    the rows and reversing the x range reverses every row. *)
Theorem density_2d_reflections (alpha Rab : R) (x y : vec) :
  (forall u v, density_2d_at alpha Rab u (- v) = density_2d_at alpha Rab u v)
  /\ density_2d alpha Rab x (map Ropp y) = density_2d alpha Rab x y
  /\ density_2d alpha Rab x (rev y) = rev (density_2d alpha Rab x y)
  /\ density_2d alpha Rab (rev x) y = map (@rev R) (density_2d alpha Rab x y)
  /\ density_1d alpha Rab (rev x) = rev (density_1d alpha Rab x).
Proof.
  rewrite !density_2d_table, !density_1d_table.
  repeat split.
  - intros u v. apply density_2d_at_opp_y.
  - rewrite map_map. apply map_ext. intros yi.
    apply map_ext. intros xj. apply density_2d_at_opp_y.
  - apply map_rev.
  - rewrite map_map. apply map_ext. intros yi. apply map_rev.
  - apply map_rev.
Qed.

(** ** The annotations *)

Lemma fold_left_Rmax_spec (l : vec) (v : R) :
  In (fold_left Rmax l v) (v :: l)
  /\ v <= fold_left Rmax l v
  /\ Forall (fun u => u <= fold_left Rmax l v) l.
Proof.
  revert v. induction l as [|u l IH]; intros v; simpl.
  - repeat split; [now left | lra | constructor].
  - destruct (IH (Rmax v u)) as (Hin & Hge & Hall).
    pose proof (Rmax_l v u) as Hl. pose proof (Rmax_r v u) as Hr.
    repeat split.
    + destruct Hin as [Heq | Hin]; [|now right; right].
      rewrite <- Heq. unfold Rmax. destruct (Rle_dec v u); [right|]; now left.
    + lra.
    + constructor; [lra | exact Hall].
Qed.

Lemma np_max_spec (a : vec) :
  a <> [] ->
  exists m, np_max a = Ok m /\ In m a /\ Forall (fun u => u <= m) a.
Proof.
  destruct a as [|v a]; [congruence|]. intros _.
  destruct (fold_left_Rmax_spec a v) as (Hin & Hge & Hall).
  exists (fold_left Rmax a v). repeat split; [exact Hin|].
  constructor; assumption.
Qed.

(** For every slider value 0 <= R <= 3 [plot_func] returns and the
    annotation step succeeds ([np.max] is applied to a non-empty array
    and gives an entry that bounds all entries).  The dashed lines are at
    -R/2 and R/2; each label anchor lies exactly 0.1 outside its line and
    strictly inside the plotted range (-2, 2); both labels sit at one
    tenth of the largest plotted value [m], which is positive, below [m]
    and at most 0.4. *)
Theorem plot_func_annotations_placed (Rab : R) :
  slider_range Rab ->
  exists Zg d a m,
    plot_func Rab = Ok (Zg, d)
    /\ plot_func_annotations Rab = Ok a
    /\ np_max d = Ok m
    /\ In m d
    /\ Forall (fun v => v <= m) d
    /\ vline_left a = - (Rab / 2)
    /\ vline_right a = Rab / 2
    /\ fst (text_left a) = vline_left a - 0.1
    /\ fst (text_right a) = vline_right a + 0.1
    /\ -2 < fst (text_left a)
    /\ fst (text_right a) < 2
    /\ snd (text_left a) = m * 0.1
    /\ snd (text_right a) = m * 0.1
    /\ 0 < m * 0.1 < m
    /\ m <= 4.
Proof.
  intros [Hlo Hhi].
  pose proof (plot_func_returns Rab Hlo) as Hplot. cbv zeta in Hplot.
  set (x := linspace (-2) 2 100) in *.
  set (d := density_1d alpha Rab x) in *.
  assert (Hne : d <> []).
  { intros Hnil. apply (f_equal (@length R)) in Hnil.
    unfold d, x in Hnil.
    rewrite density_1d_table, length_map, linspace_length in Hnil.
    discriminate. }
  destruct (np_max_spec d Hne) as (m & Hmax & Hin & Hall).
  assert (Hm : 0 < m <= 4).
  { unfold d in Hin. rewrite density_1d_table in Hin.
    apply in_map_iff in Hin as [xi [<- _]]. unfold density_1d_at.
    apply amplitude_sqr_bounds;
      [left; exact alpha_pos | apply distance_nonneg | apply distance_nonneg]. }
  exists (density_2d alpha Rab x x), d.
  eexists. exists m.
  split; [exact Hplot|].
  split.
  { unfold plot_func_annotations. rewrite Hplot. cbv zeta.
    rewrite Hmax. reflexivity. }
  cbn [vline_left vline_right text_left text_right fst snd].
  repeat split; try assumption; lra.
Qed.

Lemma plot_func_annotations_placed_witness :
  exists Zg d a m,
    plot_func 1.4 = Ok (Zg, d)
    /\ plot_func_annotations 1.4 = Ok a
    /\ np_max d = Ok m
    /\ In m d
    /\ Forall (fun v => v <= m) d
    /\ vline_left a = - (1.4 / 2)
    /\ vline_right a = 1.4 / 2
    /\ fst (text_left a) = vline_left a - 0.1
    /\ fst (text_right a) = vline_right a + 0.1
    /\ -2 < fst (text_left a)
    /\ fst (text_right a) < 2
    /\ snd (text_left a) = m * 0.1
    /\ snd (text_right a) = m * 0.1
    /\ 0 < m * 0.1 < m
    /\ m <= 4.
Proof.
  apply (plot_func_annotations_placed 1.4). unfold slider_range. lra.
Defined.

(** ** The plotted grid and the cusps *)

Lemma density_1d_at_nucleus (alpha Rab : R) :
  0 <= Rab ->
  density_1d_at alpha Rab (Rab / 2) = (1 + exp (- alpha * Rab)) ^ 2.
Proof.
  intros HR. rewrite density_1d_at_outside by lra.
  replace (Rab / 2 - Rab / 2) with 0 by ring.
  replace (Rab / 2 + Rab / 2) with Rab by field.
  now rewrite Rmult_0_r, exp_0.
Qed.

Lemma density_1d_at_peak_right (alpha Rab x : R) :
  0 < alpha -> 0 <= Rab -> 0 <= x ->
  density_1d_at alpha Rab x <= density_1d_at alpha Rab (Rab / 2).
Proof.
  intros Ha HR Hx.
  destruct (Rtotal_order x (Rab / 2)) as [Hlt | [-> | Hgt]].
  - left. apply density_1d_at_rising; lra.
  - right. reflexivity.
  - left. apply density_1d_at_falling; lra.
Qed.

Lemma density_1d_at_le_peak (alpha Rab x : R) :
  0 < alpha -> 0 <= Rab ->
  density_1d_at alpha Rab x <= density_1d_at alpha Rab (Rab / 2).
Proof.
  intros Ha HR.
  destruct (Rle_dec 0 x) as [Hx | Hx].
  - now apply density_1d_at_peak_right.
  - rewrite <- density_1d_at_opp.
    apply density_1d_at_peak_right; lra.
Qed.

Lemma grid_nonzero (v : R) : In v (linspace (-2) 2 100) -> v <> 0.
Proof.
  intros Hin Hv.
  destruct (In_nth _ _ 0 Hin) as (i & Hi & Hnth).
  rewrite linspace_length in Hi.
  rewrite grid_nth in Hnth by assumption.
  assert (H4 : 4 * IZR (Z.of_nat i) = 198) by lra.
  rewrite <- mult_IZR in H4. apply eq_IZR in H4. lia.
Qed.

Lemma distance_off_axis_lt (x y : R) : y <> 0 -> distance x 0 < distance x y.
Proof.
  intros Hy. unfold distance.
  apply sqrt_lt_1_alt. split; [apply sum_sqr_nonneg|].
  assert (0 < y ^ 2) by (apply pow_nonzero with (n := 2%nat) in Hy;
                         pose proof (pow2_ge_0 y); lra).
  nra.
Qed.

Lemma density_2d_at_lt_axis (alpha Rab x y : R) :
  0 < alpha -> 0 <= Rab -> y <> 0 ->
  density_2d_at alpha Rab x y < density_2d_at alpha Rab x 0.
Proof.
  intros Ha HR Hy. unfold density_2d_at.
  pose proof (prefactor_pos alpha Rab Ha HR) as Hc.
  apply Rmult_lt_compat_l; [exact Hc|].
  pose proof (exp_pos (- alpha * distance (x - Rab / 2) y)).
  pose proof (exp_pos (- alpha * distance (x + Rab / 2) y)).
  pose proof (distance_off_axis_lt (x - Rab / 2) y Hy) as Ha1.
  pose proof (distance_off_axis_lt (x + Rab / 2) y Hy) as Ha2.
  assert (exp (- alpha * distance (x - Rab / 2) y)
          < exp (- alpha * distance (x - Rab / 2) 0))
    by (apply exp_increasing; nra).
  assert (exp (- alpha * distance (x + Rab / 2) y)
          < exp (- alpha * distance (x + Rab / 2) 0))
    by (apply exp_increasing; nra).
  apply sqr_lt_of_pos; lra.
Qed.

(** The 100-point grid of [plot_func] has no sample at 0, so no row of
    the 2D array lies on the axis of the nuclei: for every slider value
    0 <= R <= 3 every plotted 2D value is positive and strictly below
    alpha^3 / (pi * (1 + S(R))) * (1 + exp(-alpha*R))^2, the value of the
    density formula at a nucleus. *)
Theorem plot_func_grid_misses_peak (Rab : R) :
  slider_range Rab ->
  exists Zg d,
    plot_func Rab = Ok (Zg, d)
    /\ (forall v, In v (linspace (-2) 2 100) -> v <> 0)
    /\ Forall (Forall (fun v =>
                 0 < v < alpha ^ 3 / (PI * (1 + S alpha Rab))
                         * (1 + exp (- alpha * Rab)) ^ 2))
              Zg.
Proof.
  intros [HR _].
  pose proof (plot_func_returns Rab HR) as Hplot. cbv zeta in Hplot.
  set (x := linspace (-2) 2 100) in *.
  exists (density_2d alpha Rab x x), (density_1d alpha Rab x).
  split; [exact Hplot|].
  split; [exact grid_nonzero|].
  rewrite density_2d_table.
  pose proof alpha_pos as Ha.
  pose proof (prefactor_pos alpha Rab Ha HR) as Hc.
  apply Forall_forall. intros row Hrow.
  apply in_map_iff in Hrow as [yi [<- Hyi]].
  apply Forall_forall. intros v Hv.
  apply in_map_iff in Hv as [xj [<- _]].
  split.
  - unfold density_2d_at.
    pose proof (exp_pos (- alpha * distance (xj - Rab / 2) yi)).
    pose proof (exp_pos (- alpha * distance (xj + Rab / 2) yi)).
    apply Rmult_lt_0_compat; [exact Hc|]. apply pow_lt. lra.
  - apply Rlt_le_trans with (density_2d_at alpha Rab xj 0).
    + apply density_2d_at_lt_axis; [exact Ha | exact HR |].
      now apply grid_nonzero.
    + rewrite density_2d_at_axis.
      apply Rmult_le_compat_l; [lra|].
      rewrite <- density_1d_at_nucleus by exact HR.
      now apply density_1d_at_le_peak.
Qed.

Lemma plot_func_grid_misses_peak_witness :
  exists Zg d,
    plot_func 1.4 = Ok (Zg, d)
    /\ (forall v, In v (linspace (-2) 2 100) -> v <> 0)
    /\ Forall (Forall (fun v =>
                 0 < v < alpha ^ 3 / (PI * (1 + S alpha 1.4))
                         * (1 + exp (- alpha * 1.4)) ^ 2))
              Zg.
Proof.
  apply (plot_func_grid_misses_peak 1.4). unfold slider_range. lra.
Defined.

(** ** The overflow of [math.exp] *)


